(** * Tic Tac Toe: the game logic of [App.js]

    A shallow embedding of the state and the pure functions of
    [src/tic_tac_toe_frontend/src/App.js]: the board array [squares], the
    turn flag [xIsNext], the handlers [handleSquareClick] and [handleReset],
    the derived values [winnerInfo], [isDraw], [currentPlayer] and
    [statusText], the function [calculateWinner], and the props and
    attributes that the components [Board] and [Square] compute.

    The board is a JavaScript array; it is a [list] here, read with stdpp's
    lookup [sq !! i] and written with stdpp's insert [<[i:=v]> sq]. *)

From Stdlib Require Import Ascii String DecimalString DecimalNat.
From stdpp Require Import base option list.

Open Scope string_scope.

(** ** Values *)

(** The two strings the code stores in a square: ['X'] and ['O']. *)
Inductive mark := X | O.

#[global] Instance mark_eq_dec : EqDecision mark.
Proof. solve_decision. Defined.

(** A square of the board holds [null] ([None]) or a mark. *)
Abbreviation cell := (option mark).

(** The result of an array read [sq[i]]: [undefined] past the end of the
    array ([None], as stdpp's lookup returns it), otherwise the cell. *)
Abbreviation jsval := (option (option mark)).
Abbreviation undefined := None (only parsing).
Abbreviation null := (Some None) (only parsing).
Abbreviation str m := (Some (Some m)) (only parsing).

(** JavaScript truthiness on these values: [undefined] and [null] are
    falsy, the non-empty strings ['X'] and ['O'] are truthy. *)
Definition truthy (v : jsval) : bool :=
  match v with
  | str _ => true
  | _ => false
  end.

(** Strict equality [===]. *)
Definition strict_eq (v w : jsval) : bool := bool_decide (v = w).

(** What a template literal prints for a value. *)
Definition mark_string (m : mark) : string :=
  match m with X => "X" | O => "O" end.

Definition template (v : jsval) : string :=
  match v with
  | str m => mark_string m
  | null => "null"
  | undefined => "undefined"
  end.

(** ** calculateWinner *)

(** The object [{ winner, line }] that [calculateWinner] returns. *)
Record WinnerInfo := { winner : jsval; line : list nat }.

(** The constant [lines] of [calculateWinner]. *)
Definition lines : list (nat * nat * nat) :=
  [ (0, 1, 2); (3, 4, 5); (6, 7, 8);   (* rows *)
    (0, 3, 6); (1, 4, 7); (2, 5, 8);   (* cols *)
    (0, 4, 8); (2, 4, 6) ].            (* diags *)

(** The condition of the [if] in the loop:
    [sq[a] && sq[a] === sq[b] && sq[a] === sq[c]]. *)
Definition line_test (sq : list cell) (t : nat * nat * nat) : bool :=
  let '(a, b, c) := t in
  truthy (sq !! a) && strict_eq (sq !! a) (sq !! b)
                   && strict_eq (sq !! a) (sq !! c).

(** The [for ... of] loop, over the triples still to be visited: the first
    triple that passes the test returns, the end of the list falls through
    to the final [return]. *)
Fixpoint scan (ls : list (nat * nat * nat)) (sq : list cell) : WinnerInfo :=
  match ls with
  | [] => {| winner := null; line := [] |}
  | (a, b, c) :: rest =>
      if line_test sq (a, b, c)
      then {| winner := sq !! a; line := [a; b; c] |}
      else scan rest sq
  end.

Definition calculateWinner (sq : list cell) : WinnerInfo := scan lines sq.

(** ** The component state and what is derived from it *)

(** The two [useState] cells of [App]. *)
Record GameState := { squares : list cell; xIsNext : bool }.

(** [Array(9).fill(null)]. *)
Definition empty_board : list cell := replicate 9 None.

(** The state of the first render. *)
Definition initial_state : GameState :=
  {| squares := empty_board; xIsNext := true |}.

Definition winnerInfo (st : GameState) : WinnerInfo :=
  calculateWinner (squares st).

(** [squares.every(Boolean)]. *)
Definition every_Boolean (sq : list cell) : bool :=
  forallb (fun c : cell => truthy (Some c)) sq.

(** [squares.every(Boolean) && !winnerInfo.winner]. *)
Definition isDraw (st : GameState) : bool :=
  every_Boolean (squares st) && negb (truthy (winner (winnerInfo st))).

(** [xIsNext ? 'X' : 'O']. *)
Definition currentPlayer (st : GameState) : mark :=
  if xIsNext st then X else O.

(** The assignment [next[index] = v] on the copy [squares.slice()]. Inside
    the array it overwrites one element. Past the end JavaScript grows the
    array up to [index] and leaves holes at the positions it skips; those
    positions are filled with [null] here, which reads as falsy like a
    hole but, unlike a hole, is visited by [every]. The board component
    calls the handler with the indices of existing squares only, and every
    statement below is about those. *)
Definition array_set (sq : list cell) (index : nat) (v : cell) : list cell :=
  if decide (index < length sq) then <[index:=v]> sq
  else sq ++ replicate (index - length sq) None ++ [v].

(** The guard of [handleSquareClick]:
    [squares[index] || winnerInfo.winner]. *)
Definition ignored (index : nat) (st : GameState) : bool :=
  truthy (squares st !! index) || truthy (winner (winnerInfo st)).

(** [handleSquareClick]: the early [return] leaves both state cells as they
    are; otherwise the copy with one square written becomes the board and
    the turn flag is negated. *)
Definition handleSquareClick (index : nat) (st : GameState) : GameState :=
  if ignored index st
  then st
  else {| squares := array_set (squares st) index (Some (currentPlayer st));
          xIsNext := negb (xIsNext st) |}.

(** [handleReset]. *)
Definition handleReset (st : GameState) : GameState :=
  {| squares := empty_board; xIsNext := true |}.

(** [statusText]. The draw text is written in the source with the
    typographic apostrophe U+2019 (the bytes 226, 128, 153 in UTF-8). *)
Definition draw_text : string := "It’s a draw".

Definition statusText (st : GameState) : string :=
  if truthy (winner (winnerInfo st))
  then "Winner: " ++ template (winner (winnerInfo st))
  else if isDraw st
       then draw_text
       else "Next player: " ++ mark_string (currentPlayer st).

(** ** The verdict *)

(** The three-way classification the component makes of its state, in the
    status text and in the status class: a truthy [winnerInfo.winner]
    first, then [isDraw], then neither. [Won] carries the winner and the
    line of [winnerInfo]. *)
Inductive Verdict :=
| Ongoing
| Won (m : mark) (l : list nat)
| Draw.

Definition verdict (st : GameState) : Verdict :=
  match winner (winnerInfo st) with
  | str m => Won m (line (winnerInfo st))
  | _ => if isDraw st then Draw else Ongoing
  end.

(** The verdict of a board alone: neither [winnerInfo] nor [isDraw] reads
    the turn flag. *)
Definition evaluate (sq : list cell) : Verdict :=
  verdict {| squares := sq; xIsNext := true |}.

Close Scope string_scope.

(** ** Specification vocabulary *)

(** The three cells of triple [t] all hold the mark [m]. *)
Definition winning_triple (sq : list cell) (t : nat * nat * nat) (m : mark)
  : Prop :=
  sq !! t.1.1 = str m ∧ sq !! t.1.2 = str m ∧ sq !! t.2 = str m.

(** No one of the eight triples is a winning one. *)
Definition no_winning_triple (sq : list cell) : Prop :=
  ∀ t m, t ∈ lines → ¬ winning_triple sq t m.

(** The number of squares holding [m]. *)
Definition count_mark (m : mark) (sq : list cell) : nat :=
  length (filter (λ c : cell, c = Some m) sq).

(** The marks on the board agree with the turn flag: as many X as O when X
    is next, one X more when O is next. *)
Definition balanced (st : GameState) : Prop :=
  if xIsNext st
  then count_mark X (squares st) = count_mark O (squares st)
  else count_mark X (squares st) = S (count_mark O (squares st)).

(** The states the component can be in: the first render, then any clicks
    on the nine squares and on the reset button. *)
Inductive reachable : GameState → Prop :=
| reach_init : reachable initial_state
| reach_click st index :
    reachable st → index < 9 → reachable (handleSquareClick index st)
| reach_reset st :
    reachable st → reachable (handleReset st).

(** The boolean test for the absence of a winning triple. *)
Definition no_line_passes (sq : list cell) : bool :=
  forallb (λ t, negb (line_test sq t)) lines.

(** ** Boards and states used as examples *)

(** Two winning triples of different marks, the rows [3,4,5] (of O) and
    [6,7,8] (of X). No game reaches this board; [calculateWinner] accepts
    it all the same. *)
Definition board_two_lines : list cell :=
  [None; Some X; None; Some O; Some O; Some O; Some X; Some X; Some X].

(** A full board without three in a row. *)
Definition board_drawn : list cell :=
  [Some X; Some O; Some X; Some O; Some X; Some O; Some O; Some X; Some O].

(** A game in progress. *)
Definition board_open : list cell :=
  [Some X; Some O; None; None; Some X; None; None; None; Some O].

(** X has won on the first row. *)
Definition board_won : list cell :=
  [Some X; Some X; Some X; Some O; Some O; None; None; None; None].

Definition state_drawn : GameState := {| squares := board_drawn; xIsNext := false |}.
Definition state_open : GameState := {| squares := board_open; xIsNext := true |}.
Definition state_won : GameState := {| squares := board_won; xIsNext := false |}.

(** ** Rendering *)

Open Scope string_scope.

(** The [gameOver] prop that [App] passes to the board:
    [Boolean(winnerInfo.winner) || isDraw]. *)
Definition gameOver (st : GameState) : bool :=
  truthy (winner (winnerInfo st)) || isDraw st.

(** The class of the status paragraph. *)
Definition statusClass (st : GameState) : string :=
  "status " ++ (if truthy (winner (winnerInfo st)) then "status--win"
                else if isDraw st then "status--draw" else "status--next").

(** What a template literal prints for a non-negative integer: its decimal
    digits. *)
Definition number_string (n : nat) : string :=
  NilEmpty.string_of_uint (Nat.to_uint n).

(** The [Square] component: its props, the button it renders, and the
    function between them. [onClick] is the handler the board closes over
    the index; as a function of the state it is called in. *)
Module Square.

Record props := {
  index : nat;
  value : cell;
  onClick : GameState → GameState;
  disabled : bool;
  isWinning : bool;
  currentPlayer : mark
}.

(** The attributes of the [button] element and the text of its [span]. *)
Record button := {
  className : string;
  button_onClick : GameState → GameState;
  aria_label : string;
  button_disabled : bool;
  data_testid : string;
  mark_text : string
}.

(** The constant [aria] of the component. *)
Definition aria (p : props) : string :=
  if truthy (Some (value p))
  then "Square " ++ number_string (index p + 1) ++ ", "
       ++ template (Some (value p))
  else "Square " ++ number_string (index p + 1) ++ ", empty. "
       ++ (if disabled p then "" else "Plays " ++ mark_string (currentPlayer p)).

(** The returned element. React renders a [null] child as no text. *)
Definition render (p : props) : button :=
  {| className :=
       "square " ++ (if truthy (Some (value p)) then "square--filled" else "")
       ++ " " ++ (if isWinning p then "square--win" else "");
     button_onClick := onClick p;
     aria_label := aria p;
     button_disabled := disabled p;
     data_testid := "square-" ++ number_string (index p);
     mark_text := match value p with Some m => mark_string m | None => "" end |}.

End Square.

(** The [Board] component: the props of the squares it renders, one for
    each element of [squares], in order. *)
Definition Board (squares : list cell)
    (onSquareClick : nat → GameState → GameState) (winningLine : list nat)
    (currentPlayer : mark) (gameOver : bool) : list Square.props :=
  imap (λ idx value,
          {| Square.index := idx;
             Square.value := value;
             Square.isWinning := bool_decide (idx ∈ winningLine);
             Square.onClick := onSquareClick idx;
             Square.disabled := truthy (Some value) || gameOver;
             Square.currentPlayer := currentPlayer |}) squares.

(** The [Board] element in the render of [App]. *)
Definition App_Board (st : GameState) : list Square.props :=
  Board (squares st) handleSquareClick (line (winnerInfo st))
        (currentPlayer st) (gameOver st).

Close Scope string_scope.

(** ** More vocabulary *)

(** The mark of the other player. *)
Definition other (m : mark) : mark :=
  match m with X => O | O => X end.

(** The board with the two marks exchanged. *)
Definition exchange (sq : list cell) : list cell :=
  (λ c : cell, other <$> c) <$> sq.

(** A sequence of clicks, first to last. *)
Definition clicks (indices : list nat) (st : GameState) : GameState :=
  foldl (λ s i, handleSquareClick i s) st indices.

(** X has taken the first row against two marks of O. *)
Definition state_x_row : GameState := clicks [0; 3; 1; 4; 2] initial_state.

(** ** Scenarios of the specification *)

Example scenario_A : evaluate empty_board = Ongoing.
Proof. reflexivity. Qed.

Example scenario_B :
  evaluate [Some X; Some X; Some X; None; None; None; None; None; None]
  = Won X [0; 1; 2].
Proof. reflexivity. Qed.

Example scenario_C :
  evaluate [Some X; Some O; Some X; Some O; Some X; Some O;
            Some O; Some X; Some O] = Draw.
Proof. reflexivity. Qed.

(** ** The scan of [calculateWinner] *)

Section Scan.
Variable sq : list cell.

Lemma truthy_str (v : jsval) : truthy v = true ↔ ∃ m, v = str m.
Proof.
  split.
  - destruct v as [[m|]|]; simpl; [eauto | done | done].
  - by intros [m ->].
Qed.

Lemma truthy_false_lookup (i : nat) :
  i < length sq → truthy (sq !! i) = false → sq !! i = null.
Proof.
  intros Hi Hf. destruct (lookup_lt_is_Some_2 sq i Hi) as [c Hc].
  rewrite Hc in Hf |- *. destruct c; [discriminate | done].
Qed.

(** The test of the loop holds exactly on the winning triples. *)
Lemma line_test_true (t : nat * nat * nat) :
  line_test sq t = true ↔ ∃ m, winning_triple sq t m.
Proof.
  destruct t as [[a b] c]. unfold line_test, winning_triple, strict_eq. simpl.
  rewrite !andb_true_iff, !bool_decide_eq_true, truthy_str. split.
  - intros [[[m Ha] Hb] Hc]. exists m. rewrite <- Hb, <- Hc. auto.
  - intros (m & Ha & Hb & Hc). rewrite Ha, Hb, Hc. eauto.
Qed.

Lemma line_test_false (t : nat * nat * nat) :
  line_test sq t = false ↔ ∀ m, ¬ winning_triple sq t m.
Proof.
  rewrite <- not_true_iff_false, line_test_true. split.
  - intros Hno m Hw. apply Hno. by exists m.
  - intros Hno [m Hw]. by apply (Hno m).
Qed.

(** One turn of the loop. *)
Lemma scan_cons (a b c : nat) (rest : list (nat * nat * nat)) :
  scan ((a, b, c) :: rest) sq =
  if line_test sq (a, b, c)
  then {| winner := sq !! a; line := [a; b; c] |}
  else scan rest sq.
Proof. reflexivity. Qed.

(** The loop returns at the first triple of [ls] that is a winning one. *)
Lemma scan_first (ls : list (nat * nat * nat)) :
  (∃ t m, t ∈ ls ∧ winning_triple sq t m) →
  ∃ before a b c after m,
    ls = before ++ (a, b, c) :: after
    ∧ (∀ t m', t ∈ before → ¬ winning_triple sq t m')
    ∧ winning_triple sq (a, b, c) m
    ∧ scan ls sq = {| winner := str m; line := [a; b; c] |}.
Proof.
  induction ls as [|[[a b] c] rest IH]; intros (t & m & Hin & Hw).
  - by apply elem_of_nil in Hin.
  - rewrite scan_cons. destruct (line_test sq (a, b, c)) eqn:Htest.
    + apply line_test_true in Htest as [m0 Hm0].
      exists [], a, b, c, rest, m0. split; [done |]. split; [| split; [done |]].
      * intros t' m' Hnil. by apply elem_of_nil in Hnil.
      * destruct Hm0 as [Ha _]. simpl in Ha. by rewrite Ha.
    + apply elem_of_cons in Hin as [-> | Hin].
      { rewrite line_test_false in Htest. by destruct (Htest m). }
      destruct IH as (before & a' & b' & c' & after & m1 & -> & Hb & Hw1 & Hs);
        [by exists t, m |].
      exists ((a, b, c) :: before), a', b', c', after, m1.
      split; [done |]. split; [| done].
      intros t' m' [-> | Hin']%elem_of_cons; [| by apply Hb].
      rewrite line_test_false in Htest. apply Htest.
Qed.

(** With no winning triple in [ls] the loop falls through. *)
Lemma scan_none (ls : list (nat * nat * nat)) :
  (∀ t m, t ∈ ls → ¬ winning_triple sq t m) →
  scan ls sq = {| winner := null; line := [] |}.
Proof.
  induction ls as [|[[a b] c] rest IH]; intros Hno; [done |].
  rewrite scan_cons. destruct (line_test sq (a, b, c)) eqn:Htest.
  - apply line_test_true in Htest as [m Hm].
    destruct (Hno (a, b, c) m); [apply list_elem_of_here | done].
  - apply IH. intros t m Hin. apply Hno. by apply list_elem_of_further.
Qed.

(** A truthy winner comes from a winning triple of the list. *)
Lemma scan_winner (ls : list (nat * nat * nat)) :
  truthy (winner (scan ls sq)) = true →
  ∃ t m, t ∈ ls ∧ winning_triple sq t m.
Proof.
  induction ls as [|[[a b] c] rest IH]; [discriminate |].
  rewrite scan_cons. destruct (line_test sq (a, b, c)) eqn:Htest.
  - intros _. apply line_test_true in Htest as [m Hm].
    exists (a, b, c), m. split; [apply list_elem_of_here | done].
  - intros H. destruct (IH H) as (t & m & Hin & Hw).
    exists t, m. split; [by apply list_elem_of_further | done].
Qed.

Lemma every_Boolean_lookup :
  every_Boolean sq = true ↔ ∀ i, i < length sq → ∃ m, sq !! i = str m.
Proof.
  unfold every_Boolean. rewrite forallb_forall. split.
  - intros H i Hi. destruct (lookup_lt_is_Some_2 sq i Hi) as [c Hc].
    apply truthy_str. rewrite Hc. apply H.
    apply list_elem_of_In. by eapply list_elem_of_lookup_2.
  - intros H c Hin. apply list_elem_of_In, list_elem_of_lookup_1 in Hin as [i Hi].
    destruct (H i) as [m Hm]; [by eapply lookup_lt_Some |].
    rewrite Hi in Hm. by rewrite Hm.
Qed.
End Scan.

Lemma no_line_passes_spec (sq : list cell) :
  no_line_passes sq = true ↔ no_winning_triple sq.
Proof.
  unfold no_line_passes, no_winning_triple. rewrite forallb_forall. split.
  - intros H t m Hin%list_elem_of_In. apply H in Hin.
    apply negb_true_iff in Hin. rewrite line_test_false in Hin. apply Hin.
  - intros H t Hin%list_elem_of_In. apply negb_true_iff, line_test_false.
    intros m. by apply H.
Qed.

Lemma calculateWinner_none (sq : list cell) :
  no_winning_triple sq →
  calculateWinner sq = {| winner := null; line := [] |}.
Proof. apply scan_none. Qed.

(** ** The verdict of a board *)

(** C1. On every 9-cell board with at least one winning triple,
    [calculateWinner] returns the mark and the indices of the first winning
    triple in the order of [lines] (rows, columns, diagonals): every triple
    before it is not a winning one. The verdict is [Won] with that mark and
    that triple. *)
Theorem calculateWinner_first_winning_triple (sq : list cell) :
  length sq = 9 →
  (∃ t m, t ∈ lines ∧ winning_triple sq t m) →
  ∃ before a b c after m,
    lines = before ++ (a, b, c) :: after
    ∧ (∀ t m', t ∈ before → ¬ winning_triple sq t m')
    ∧ winning_triple sq (a, b, c) m
    ∧ calculateWinner sq = {| winner := str m; line := [a; b; c] |}
    ∧ evaluate sq = Won m [a; b; c].
Proof.
  intros _ Hex.
  destruct (scan_first sq lines Hex)
    as (before & a & b & c & after & m & Hl & Hb & Hw & Hs).
  exists before, a, b, c, after, m. repeat (split; [done |]).
  unfold evaluate, verdict, winnerInfo, calculateWinner. simpl squares.
  by rewrite Hs.
Qed.

Lemma calculateWinner_first_winning_triple_witness :
  length board_two_lines = 9
  ∧ (∃ t m, t ∈ lines ∧ winning_triple board_two_lines t m)
  ∧ ∃ before a b c after m,
      lines = before ++ (a, b, c) :: after
      ∧ (∀ t m', t ∈ before → ¬ winning_triple board_two_lines t m')
      ∧ winning_triple board_two_lines (a, b, c) m
      ∧ calculateWinner board_two_lines
        = {| winner := str m; line := [a; b; c] |}
      ∧ evaluate board_two_lines = Won m [a; b; c].
Proof.
  assert (Hex : ∃ t m, t ∈ lines ∧ winning_triple board_two_lines t m).
  { exists (6, 7, 8), X. split; [| by vm_compute].
    do 2 apply list_elem_of_further. apply list_elem_of_here. }
  split; [reflexivity |]. split; [exact Hex |].
  apply (calculateWinner_first_winning_triple board_two_lines);
    [reflexivity | exact Hex].
Defined.

(** The row [3,4,5] comes before the row [6,7,8] in [lines]. *)
Example board_two_lines_verdict : evaluate board_two_lines = Won O [3; 4; 5].
Proof. reflexivity. Qed.

(** C3. On every 9-cell board with no winning triple and all nine cells
    non-empty, the verdict is [Draw]. *)
Theorem evaluate_full_board_draw (sq : list cell) :
  length sq = 9 →
  no_winning_triple sq →
  (∀ i, i < 9 → ∃ m, sq !! i = str m) →
  evaluate sq = Draw.
Proof.
  intros Hlen Hno Hfull.
  unfold evaluate, verdict, isDraw, winnerInfo. simpl squares.
  rewrite (calculateWinner_none sq Hno). simpl.
  assert (every_Boolean sq = true) as ->; [| done].
  apply every_Boolean_lookup. by rewrite Hlen.
Qed.

Lemma evaluate_full_board_draw_witness :
  length board_drawn = 9
  ∧ no_winning_triple board_drawn
  ∧ (∀ i, i < 9 → ∃ m, board_drawn !! i = str m)
  ∧ evaluate board_drawn = Draw.
Proof.
  assert (Hno : no_winning_triple board_drawn)
    by (apply no_line_passes_spec; reflexivity).
  assert (Hfull : ∀ i, i < 9 → ∃ m, board_drawn !! i = str m)
    by (apply (proj1 (every_Boolean_lookup board_drawn)); reflexivity).
  split; [reflexivity |]. split; [exact Hno |]. split; [exact Hfull |].
  apply (evaluate_full_board_draw board_drawn); [reflexivity | exact Hno | exact Hfull].
Defined.

(** C4. On every 9-cell board with no winning triple and at least one
    empty cell, the verdict is [Ongoing]: [calculateWinner] reports no
    winner and no line, and the board is not a draw. *)
Theorem evaluate_open_board_ongoing (sq : list cell) :
  length sq = 9 →
  no_winning_triple sq →
  (∃ i, i < 9 ∧ sq !! i = null) →
  evaluate sq = Ongoing
  ∧ calculateWinner sq = {| winner := null; line := [] |}
  ∧ every_Boolean sq = false.
Proof.
  intros Hlen Hno (i & Hi & Hnull).
  assert (Hev : every_Boolean sq = false).
  { apply not_true_iff_false. intros Hall.
    destruct (proj1 (every_Boolean_lookup sq) Hall i) as [m Hm]; [lia |].
    congruence. }
  split; [| split; [by apply calculateWinner_none | done]].
  unfold evaluate, verdict, isDraw, winnerInfo. simpl squares.
  rewrite (calculateWinner_none sq Hno). simpl. by rewrite Hev.
Qed.

Lemma evaluate_open_board_ongoing_witness :
  length board_open = 9
  ∧ no_winning_triple board_open
  ∧ (∃ i, i < 9 ∧ board_open !! i = null)
  ∧ evaluate board_open = Ongoing
  ∧ calculateWinner board_open = {| winner := null; line := [] |}
  ∧ every_Boolean board_open = false.
Proof.
  assert (Hno : no_winning_triple board_open)
    by (apply no_line_passes_spec; reflexivity).
  assert (Hex : ∃ i, i < 9 ∧ board_open !! i = null)
    by (exists 2; split; [lia | reflexivity]).
  split; [reflexivity |]. split; [exact Hno |]. split; [exact Hex |].
  apply (evaluate_open_board_ongoing board_open); [reflexivity | exact Hno | exact Hex].
Defined.

(** ** Clicks *)

Section Click.
Variable st : GameState.
Variable index : nat.

Lemma verdict_evaluate : verdict st = evaluate (squares st).
Proof. reflexivity. Qed.

Lemma click_ignored : ignored index st = true → handleSquareClick index st = st.
Proof. unfold handleSquareClick. by intros ->. Qed.

Lemma click_accepted :
  ignored index st = false →
  handleSquareClick index st
  = {| squares := array_set (squares st) index (Some (currentPlayer st));
       xIsNext := negb (xIsNext st) |}.
Proof. unfold handleSquareClick. by intros ->. Qed.

(** A verdict other than [Ongoing] comes with a truthy winner or with a
    board whose cells are all truthy. *)
Lemma verdict_over :
  verdict st ≠ Ongoing →
  truthy (winner (winnerInfo st)) = true
  ∨ (verdict st = Draw ∧ every_Boolean (squares st) = true).
Proof.
  unfold verdict, isDraw.
  destruct (winner (winnerInfo st)) as [[m|]|]; simpl; auto;
    rewrite andb_true_r; destruct (every_Boolean (squares st)); auto; done.
Qed.

Lemma verdict_ongoing :
  verdict st = Ongoing → truthy (winner (winnerInfo st)) = false.
Proof.
  unfold verdict. by destruct (winner (winnerInfo st)) as [[m|]|].
Qed.

Lemma occupied_ignored (m : mark) :
  squares st !! index = str m → ignored index st = true.
Proof. unfold ignored. by intros ->. Qed.

Lemma over_ignored :
  index < length (squares st) → verdict st ≠ Ongoing → ignored index st = true.
Proof.
  intros Hi [Hw | [_ Hall]]%verdict_over; unfold ignored.
  - rewrite Hw. apply orb_true_r.
  - destruct (proj1 (every_Boolean_lookup _) Hall index Hi) as [m ->]. done.
Qed.

Lemma empty_ongoing_accepted :
  verdict st = Ongoing → squares st !! index = null → ignored index st = false.
Proof.
  intros Hv Hc. unfold ignored. by rewrite Hc, (verdict_ongoing Hv).
Qed.

Lemma array_set_inside (sq : list cell) (v : cell) :
  index < length sq → array_set sq index v = <[index:=v]> sq.
Proof. intros Hi. unfold array_set. by rewrite decide_True. Qed.
End Click.

(** ** Counting marks *)

Lemma count_mark_cons (m : mark) (c : cell) (sq : list cell) :
  count_mark m (c :: sq)
  = (if decide (c = Some m) then 1 else 0) + count_mark m sq.
Proof.
  unfold count_mark. rewrite filter_cons. by destruct (decide (c = Some m)).
Qed.

(** Writing a mark into an empty cell adds one to the count of that mark
    and leaves the count of the other. *)
Lemma count_mark_insert (m p : mark) (sq : list cell) (i : nat) :
  sq !! i = null →
  count_mark m (<[i:=Some p]> sq)
  = (if decide (p = m) then 1 else 0) + count_mark m sq.
Proof.
  revert i. induction sq as [|c sq IH]; intros i Hi; [done |].
  destruct i as [|i]; simpl in Hi |- *.
  - injection Hi as ->. rewrite !count_mark_cons.
    destruct (decide (p = m)) as [->|Hne].
    + rewrite decide_True by done. by rewrite decide_False by done.
    + rewrite decide_False by congruence. by rewrite decide_False by done.
  - rewrite !count_mark_cons, (IH i Hi). lia.
Qed.

(** One click keeps the length of the board and the balance of the marks. *)
Lemma click_preserves (st : GameState) (index : nat) :
  index < 9 →
  length (squares st) = 9 ∧ balanced st →
  length (squares (handleSquareClick index st)) = 9
  ∧ balanced (handleSquareClick index st).
Proof.
  intros Hi [Hlen Hbal]. destruct (ignored index st) eqn:Hig.
  - by rewrite click_ignored.
  - rewrite click_accepted by done.
    assert (Hnull : squares st !! index = null).
    { apply truthy_false_lookup; [lia |].
      unfold ignored in Hig. by apply orb_false_iff in Hig as [? _]. }
    unfold balanced in *. simpl.
    rewrite array_set_inside by lia. rewrite length_insert. split; [done |].
    rewrite !count_mark_insert by done.
    unfold currentPlayer. destruct (xIsNext st); simpl; lia.
Qed.

Lemma reachable_length_balanced (st : GameState) :
  reachable st → length (squares st) = 9 ∧ balanced st.
Proof.
  induction 1 as [| st index _ IH Hi | st _ _].
  - by split.
  - by apply click_preserves.
  - by split.
Qed.

(** ** The handlers *)

(** C2. In a state whose verdict is [Won] or [Draw], a click on any of the
    nine squares changes neither the board nor the turn flag. In a [Draw]
    state the clicked square is occupied, as every square is. *)
Theorem click_when_over_is_noop (st : GameState) (index : nat) :
  length (squares st) = 9 →
  index < 9 →
  evaluate (squares st) ≠ Ongoing →
  handleSquareClick index st = st
  ∧ (evaluate (squares st) = Draw → ∃ m, squares st !! index = str m).
Proof.
  intros Hlen Hi Hover. rewrite <- verdict_evaluate in *. split.
  - apply click_ignored, over_ignored; [lia | done].
  - intros Hd. destruct (verdict_over st Hover) as [Hw | [_ Hall]].
    + unfold verdict in Hd.
      by destruct (winner (winnerInfo st)) as [[m|]|].
    + apply (proj1 (every_Boolean_lookup _) Hall). lia.
Qed.

Lemma click_when_over_is_noop_witness :
  (length (squares state_won) = 9 ∧ 5 < 9
   ∧ evaluate (squares state_won) ≠ Ongoing
   ∧ handleSquareClick 5 state_won = state_won)
  ∧ (length (squares state_drawn) = 9 ∧ 4 < 9
     ∧ evaluate (squares state_drawn) ≠ Ongoing
     ∧ handleSquareClick 4 state_drawn = state_drawn).
Proof.
  split.
  - split; [reflexivity |]. split; [lia |]. split; [by vm_compute |].
    apply (click_when_over_is_noop state_won 5);
      [reflexivity | lia | by vm_compute].
  - split; [reflexivity |]. split; [lia |]. split; [by vm_compute |].
    apply (click_when_over_is_noop state_drawn 4);
      [reflexivity | lia | by vm_compute].
Defined.

(** C5. A click on an occupied square, in any state, changes neither the
    board nor the turn flag; the handler returns normally. *)
Theorem click_on_occupied_is_noop (st : GameState) (index : nat) (m : mark) :
  length (squares st) = 9 →
  index < 9 →
  squares st !! index = str m →
  handleSquareClick index st = st.
Proof.
  intros _ _ Hocc. by eapply click_ignored, occupied_ignored.
Qed.

Lemma click_on_occupied_is_noop_witness :
  length (squares state_open) = 9 ∧ 1 < 9
  ∧ squares state_open !! 1 = str O
  ∧ handleSquareClick 1 state_open = state_open.
Proof.
  split; [reflexivity |]. split; [lia |]. split; [reflexivity |].
  apply (click_on_occupied_is_noop state_open 1 O); [reflexivity | lia | reflexivity].
Defined.

(** Scenario D: the second click on square 0 is ignored and O stays next. *)
Example scenario_D :
  handleSquareClick 0 (handleSquareClick 0 initial_state)
  = handleSquareClick 0 initial_state
  ∧ currentPlayer (handleSquareClick 0 initial_state) = O.
Proof. split; reflexivity. Qed.

(** C6. From any state, reset gives the board of nine empty cells and
    makes X the next player. *)
Theorem reset_clears (st : GameState) :
  length (squares (handleReset st)) = 9
  ∧ (∀ i, i < 9 → squares (handleReset st) !! i = null)
  ∧ xIsNext (handleReset st) = true
  ∧ currentPlayer (handleReset st) = X
  ∧ handleReset st = initial_state.
Proof.
  split; [reflexivity |]. split; [| by repeat split].
  intros i Hi. simpl. unfold empty_board. by apply lookup_replicate_2.
Qed.

(** C7. In a state whose verdict is [Ongoing], a click on an empty square
    among the nine writes the mark of the current player into that square,
    into no other, and negates the turn flag, so that the other player is
    next. A click that is rejected, for an occupied square or a verdict
    other than [Ongoing], leaves the turn flag as it is. *)
Theorem click_on_empty_places_and_flips (st : GameState) (index : nat) :
  length (squares st) = 9 →
  index < 9 →
  (evaluate (squares st) = Ongoing →
   squares st !! index = null →
   squares (handleSquareClick index st)
   = <[index:=Some (currentPlayer st)]> (squares st)
   ∧ squares (handleSquareClick index st) !! index = str (currentPlayer st)
   ∧ xIsNext (handleSquareClick index st) = negb (xIsNext st)
   ∧ currentPlayer (handleSquareClick index st) ≠ currentPlayer st)
  ∧ (evaluate (squares st) ≠ Ongoing ∨ (∃ m, squares st !! index = str m) →
     xIsNext (handleSquareClick index st) = xIsNext st).
Proof.
  intros Hlen Hi. rewrite <- verdict_evaluate. split.
  - intros Hv Hnull.
    rewrite (click_accepted st index) by by apply empty_ongoing_accepted.
    simpl. rewrite array_set_inside by lia.
    split; [done |]. split; [apply list_lookup_insert_eq; lia |].
    split; [done |]. unfold currentPlayer. simpl. by destruct (xIsNext st).
  - intros [Hover | [m Hocc]].
    + rewrite click_ignored; [done |]. apply over_ignored; [lia | done].
    + rewrite click_ignored; [done |]. by eapply occupied_ignored.
Qed.

Lemma click_on_empty_places_and_flips_witness :
  (length (squares state_open) = 9 ∧ 2 < 9
   ∧ evaluate (squares state_open) = Ongoing
   ∧ squares state_open !! 2 = null
   ∧ squares (handleSquareClick 2 state_open)
     = [Some X; Some O; Some X; None; Some X; None; None; None; Some O]
   ∧ xIsNext (handleSquareClick 2 state_open) = false)
  ∧ (evaluate (squares state_won) ≠ Ongoing
     ∧ xIsNext (handleSquareClick 5 state_won) = xIsNext state_won).
Proof.
  assert (H2 : 2 < 9) by lia. assert (H5 : 5 < 9) by lia.
  assert (Hopen : evaluate (squares state_open) = Ongoing) by reflexivity.
  assert (Hover : evaluate (squares state_won) ≠ Ongoing) by by vm_compute.
  split.
  - split; [reflexivity |]. split; [exact H2 |]. split; [exact Hopen |].
    split; [reflexivity |].
    destruct (click_on_empty_places_and_flips state_open 2 eq_refl H2)
      as [Hplace _].
    destruct (Hplace Hopen eq_refl) as (Hsq & _ & Hturn & _).
    split; [exact Hsq | exact Hturn].
  - split; [exact Hover |].
    destruct (click_on_empty_places_and_flips state_won 5 eq_refl H5)
      as [_ Hrej].
    apply Hrej. left. exact Hover.
Defined.

(** C9. In every state reached from the first render by clicks on the nine
    squares and on reset, the board holds as many X as O when X is next,
    and exactly one X more than O when O is next. *)
Theorem reachable_counts (st : GameState) :
  reachable st →
  (xIsNext st = true →
   count_mark X (squares st) = count_mark O (squares st))
  ∧ (xIsNext st = false →
     count_mark X (squares st) = S (count_mark O (squares st))).
Proof.
  intros [_ Hbal]%reachable_length_balanced. unfold balanced in Hbal.
  destruct (xIsNext st); split; intros; done.
Qed.

Lemma reachable_counts_witness :
  reachable (handleSquareClick 4 (handleSquareClick 0 (handleSquareClick 8 initial_state)))
  ∧ count_mark X [Some O; None; None; None; Some X; None; None; None; Some X]
    = S (count_mark O [Some O; None; None; None; Some X; None; None; None; Some X]).
Proof.
  assert (Hr : reachable (handleSquareClick 4 (handleSquareClick 0
                 (handleSquareClick 8 initial_state)))).
  { repeat (apply reach_click; [| lia]). apply reach_init. }
  split; [exact Hr |].
  apply (reachable_counts _ Hr). reflexivity.
Defined.

(** C10. A click that is accepted keeps the value of every square other
    than the clicked one, and the number of squares. *)
Theorem click_frame (st : GameState) (index j : nat) :
  length (squares st) = 9 →
  index < 9 →
  ignored index st = false →
  j ≠ index →
  squares (handleSquareClick index st) !! j = squares st !! j
  ∧ length (squares (handleSquareClick index st)) = length (squares st).
Proof.
  intros Hlen Hi Hacc Hne. rewrite click_accepted by done. simpl.
  rewrite array_set_inside by lia.
  split; [by apply list_lookup_insert_ne | apply length_insert].
Qed.

Lemma click_frame_witness :
  length (squares state_open) = 9 ∧ 2 < 9
  ∧ ignored 2 state_open = false ∧ 4 ≠ 2
  ∧ squares (handleSquareClick 2 state_open) !! 4 = squares state_open !! 4
  ∧ length (squares (handleSquareClick 2 state_open))
    = length (squares state_open).
Proof.
  split; [reflexivity |]. split; [lia |]. split; [reflexivity |].
  split; [lia |].
  apply (click_frame state_open 2 4); [reflexivity | lia | reflexivity | lia].
Defined.

(** Scenario E: after a win a click on an empty square changes nothing. *)
Example scenario_E : handleSquareClick 5 state_won = state_won.
Proof. reflexivity. Qed.

(** ** The status text *)

(** The draw text of the source, character by character: the apostrophe is
    U+2019, three bytes in UTF-8. *)
Example draw_text_bytes :
  list_ascii_of_string draw_text
  = ["I"; "t"; "226"; "128"; "153"; "s"; " "; "a"; " ";
     "d"; "r"; "a"; "w"]%char.
Proof. reflexivity. Qed.

(** C8, as stated, fails on the draw text: in a drawn state the status text
    is not the text with the ASCII apostrophe. *)
Lemma statusText_draw_not_ascii :
  evaluate (squares state_drawn) = Draw
  ∧ statusText state_drawn ≠ "It's a draw"%string.
Proof. split; [reflexivity | by vm_compute]. Qed.

(** C8, amended. The status text is "Next player: " followed by the mark of
    the current player when the verdict is [Ongoing], "Winner: " followed
    by the winning mark when it is [Won], and the draw text with the
    typographic apostrophe U+2019 when it is [Draw]. *)
Theorem statusText_by_verdict (st : GameState) :
  statusText st
  = match evaluate (squares st) with
    | Ongoing => ("Next player: " ++ mark_string (currentPlayer st))%string
    | Won m _ => ("Winner: " ++ mark_string m)%string
    | Draw => "It’s a draw"%string
    end.
Proof.
  rewrite <- verdict_evaluate. unfold statusText, verdict.
  destruct (winner (winnerInfo st)) as [[m|]|]; simpl; [done | |];
    by destruct (isDraw st).
Qed.

Example statusText_open : statusText state_open = "Next player: X"%string.
Proof. reflexivity. Qed.

Example statusText_won : statusText state_won = "Winner: X"%string.
Proof. reflexivity. Qed.

(** ** More on [calculateWinner] *)

(** What the loop can return, on an array of any length: no winner and no
    line when no triple of [ls] is a winning one, otherwise a mark and a
    triple of [ls] whose three cells hold it. *)
Lemma scan_cases (sq : list cell) (ls : list (nat * nat * nat)) :
  (scan ls sq = {| winner := null; line := [] |}
   ∧ ∀ t m, t ∈ ls → ¬ winning_triple sq t m)
  ∨ (∃ a b c m, (a, b, c) ∈ ls ∧ winning_triple sq (a, b, c) m
       ∧ scan ls sq = {| winner := str m; line := [a; b; c] |}).
Proof.
  induction ls as [|[[a b] c] rest IH].
  - left. split; [done |]. intros t m Hin. by apply elem_of_nil in Hin.
  - rewrite scan_cons. destruct (line_test sq (a, b, c)) eqn:Htest.
    + right. apply line_test_true in Htest as [m Hm].
      exists a, b, c, m. split; [apply list_elem_of_here |]. split; [done |].
      destruct Hm as [Ha _]. simpl in Ha. by rewrite Ha.
    + destruct IH as [[Hs Hno] | (a' & b' & c' & m & Hin & Hw & Hs)].
      * left. split; [done |].
        intros t m [-> | Hin]%elem_of_cons; [| by apply Hno].
        by apply line_test_false.
      * right. exists a', b', c', m.
        split; [by apply list_elem_of_further | done].
Qed.

Lemma winner_falsy_no_triple (sq : list cell) :
  truthy (winner (calculateWinner sq)) = false → no_winning_triple sq.
Proof.
  unfold calculateWinner.
  destruct (scan_cases sq lines) as [[_ Hno] | (a & b & c & m & _ & _ & ->)];
    [done | discriminate].
Qed.

(** The two shapes of the result of [calculateWinner]. *)
Lemma calculateWinner_shape (sq : list cell) :
  (calculateWinner sq = {| winner := null; line := [] |}
   ∧ no_winning_triple sq)
  ∨ (∃ a b c m,
       (a, b, c) ∈ lines ∧ winning_triple sq (a, b, c) m
       ∧ a < b < c ∧ c < 9
       ∧ calculateWinner sq = {| winner := str m; line := [a; b; c] |}).
Proof.
  destruct (scan_cases sq lines) as [H | (a & b & c & m & Hin & Hw & Hs)];
    [by left | right].
  exists a, b, c, m. split; [done |]. split; [done |].
  assert (Hbounds : a < b < c ∧ c < 9); [| by destruct Hbounds].
  unfold lines in Hin.
  repeat (apply elem_of_cons in Hin as [[= -> -> ->] | Hin]; [lia |]).
  by apply elem_of_nil in Hin.
Qed.

(** X1. [calculateWinner] reports a winner only for three equal marks: on
    an array of any length it returns either a [null] winner with the empty
    line, and then no triple is a winning one, or a mark with one of the
    eight triples, three distinct indices below 9 whose cells all hold that
    mark. The winner is never [undefined]. *)
Theorem calculateWinner_cases (sq : list cell) :
  (calculateWinner sq = {| winner := null; line := [] |}
   ∧ no_winning_triple sq)
  ∨ (∃ a b c m,
       (a, b, c) ∈ lines ∧ winning_triple sq (a, b, c) m
       ∧ a < b < c ∧ c < 9
       ∧ calculateWinner sq = {| winner := str m; line := [a; b; c] |}).
Proof. apply calculateWinner_shape. Qed.

Lemma truthy_exchange (v : option cell) :
  truthy ((λ c : cell, other <$> c) <$> v) = truthy v.
Proof. by destruct v as [[m|]|]. Qed.

Lemma strict_eq_exchange (v w : option cell) :
  strict_eq ((λ c : cell, other <$> c) <$> v) ((λ c : cell, other <$> c) <$> w)
  = strict_eq v w.
Proof.
  unfold strict_eq. apply bool_decide_ext.
  destruct v as [[[]|]|], w as [[[]|]|]; simpl; split; congruence.
Qed.

Lemma line_test_exchange (sq : list cell) (t : nat * nat * nat) :
  line_test (exchange sq) t = line_test sq t.
Proof.
  destruct t as [[a b] c]. unfold line_test, exchange.
  rewrite !list_lookup_fmap. by rewrite truthy_exchange, !strict_eq_exchange.
Qed.

(** X2. [calculateWinner] treats the two marks alike: on the board with X
    and O exchanged it returns the same line and the other mark as winner
    ([null] stays [null]). *)
Theorem calculateWinner_exchange (sq : list cell) :
  calculateWinner (exchange sq)
  = {| winner := (λ c : cell, other <$> c) <$> winner (calculateWinner sq);
       line := line (calculateWinner sq) |}.
Proof.
  unfold calculateWinner. induction lines as [|[[a b] c] rest IH]; [done |].
  rewrite !scan_cons, line_test_exchange.
  destruct (line_test sq (a, b, c)); [| done].
  simpl. unfold exchange. by rewrite list_lookup_fmap.
Qed.

Example calculateWinner_exchange_won :
  calculateWinner (exchange board_won)
  = {| winner := str O; line := [0; 1; 2] |}.
Proof. reflexivity. Qed.

(** On an array too short for a triple the reads past the end are
    [undefined] and no winner is found. *)
Example calculateWinner_short :
  calculateWinner [Some X; Some X] = {| winner := null; line := [] |}
  ∧ calculateWinner [] = {| winner := null; line := [] |}.
Proof. split; reflexivity. Qed.

(** ** More on the handlers *)

Lemma array_set_lookup_inside (sq : list cell) (i j : nat) (v : cell) :
  j < length sq → j ≠ i → array_set sq i v !! j = sq !! j.
Proof.
  intros Hj Hne. unfold array_set. case_decide.
  - by apply list_lookup_insert_ne.
  - by apply lookup_app_l.
Qed.

Lemma click_keeps_mark (st : GameState) (index j : nat) (m : mark) :
  squares st !! j = str m →
  squares (handleSquareClick index st) !! j = str m.
Proof.
  intros Hj. destruct (ignored index st) eqn:Hig.
  - by rewrite click_ignored.
  - rewrite click_accepted by done. simpl.
    rewrite array_set_lookup_inside; [done | by eapply lookup_lt_Some |].
    intros ->. unfold ignored in Hig. by rewrite Hj in Hig.
Qed.

(** X3. Clicks never erase or replace a mark: a square that holds a mark
    holds the same mark after any sequence of clicks, whatever indices the
    handler is called with. *)
Theorem clicks_keep_marks (indices : list nat) (st : GameState) (j : nat)
    (m : mark) :
  squares st !! j = str m →
  squares (clicks indices st) !! j = str m.
Proof.
  revert st. induction indices as [|i indices IH]; intros st Hj; [done |].
  apply IH. by apply click_keeps_mark.
Qed.

Lemma clicks_keep_marks_witness :
  squares state_open !! 4 = str X
  ∧ squares (clicks [4; 2; 4; 3; 17] state_open) !! 4 = str X.
Proof.
  split; [reflexivity |].
  apply (clicks_keep_marks [4; 2; 4; 3; 17] state_open 4 X). reflexivity.
Defined.

(** X4. The board keeps its nine squares: in every reachable state the
    array has length 9 and the board component renders nine squares, the
    one at position [i] with index [i]. *)
Theorem reachable_nine_squares (st : GameState) :
  reachable st →
  length (squares st) = 9
  ∧ length (App_Board st) = 9
  ∧ ∀ i p, App_Board st !! i = Some p → Square.index p = i ∧ i < 9.
Proof.
  intros [Hlen _]%reachable_length_balanced.
  unfold App_Board, Board. rewrite length_imap.
  split; [done |]. split; [done |]. intros i p Hp.
  rewrite list_lookup_imap in Hp.
  destruct (squares st !! i) as [c|] eqn:Hi; [| done].
  injection Hp as <-. split; [done |].
  rewrite <- Hlen. by eapply lookup_lt_Some.
Qed.

Lemma clicks_reachable (indices : list nat) (st : GameState) :
  Forall (λ i, i < 9) indices → reachable st → reachable (clicks indices st).
Proof.
  revert st. induction indices as [|i indices IH]; intros st Hall Hr; [done |].
  inversion Hall; subst. apply IH; [done |]. by apply reach_click.
Qed.

Lemma state_x_row_reachable : reachable state_x_row.
Proof.
  apply clicks_reachable; [| apply reach_init].
  repeat (apply Forall_cons; split; [lia |]). apply Forall_nil_2.
Qed.

Lemma reachable_nine_squares_witness :
  reachable state_x_row
  ∧ length (squares state_x_row) = 9
  ∧ length (App_Board state_x_row) = 9.
Proof.
  split; [exact state_x_row_reachable |].
  destruct (reachable_nine_squares state_x_row state_x_row_reachable)
    as (H1 & H2 & _).
  split; [exact H1 | exact H2].
Defined.

(** X5. The board determines whose turn it is: two reachable states with
    the same board are the same state. *)
Theorem reachable_turn_from_board (st1 st2 : GameState) :
  reachable st1 → reachable st2 →
  squares st1 = squares st2 →
  st1 = st2.
Proof.
  intros [_ Hb1]%reachable_length_balanced [_ Hb2]%reachable_length_balanced Heq.
  unfold balanced in *. destruct st1 as [sq1 x1], st2 as [sq2 x2].
  simpl in *. subst sq2. f_equal.
  destruct x1, x2; try done; lia.
Qed.

Lemma reachable_turn_from_board_witness :
  reachable (clicks [0; 4] initial_state)
  ∧ reachable (clicks [0; 0; 4; 4] (handleReset state_x_row))
  ∧ squares (clicks [0; 4] initial_state)
    = squares (clicks [0; 0; 4; 4] (handleReset state_x_row))
  ∧ clicks [0; 4] initial_state
    = clicks [0; 0; 4; 4] (handleReset state_x_row).
Proof.
  assert (H1 : reachable (clicks [0; 4] initial_state)).
  { repeat (apply reach_click; [| lia]). apply reach_init. }
  assert (H2 : reachable (clicks [0; 0; 4; 4] (handleReset state_x_row))).
  { repeat (apply reach_click; [| lia]). apply reach_reset.
    exact state_x_row_reachable. }
  split; [exact H1 |]. split; [exact H2 |]. split; [reflexivity |].
  apply (reachable_turn_from_board _ _ H1 H2). reflexivity.
Defined.

(** ** The winner of a game *)

Lemma currentPlayer_flipped (sq sq' : list cell) (x : bool) :
  currentPlayer {| squares := sq'; xIsNext := negb x |}
  ≠ currentPlayer {| squares := sq; xIsNext := x |}.
Proof. unfold currentPlayer. by destruct x. Qed.

(** A line of the mark [m] on the board after [p] was written at [i],
    with [m] other than [p], was a line of the board before. *)
Lemma winning_triple_before (sq : list cell) (i : nat) (p m : mark)
    (t : nat * nat * nat) :
  i < length sq → m ≠ p →
  winning_triple (<[i:=Some p]> sq) t m → winning_triple sq t m.
Proof.
  intros Hi Hne. unfold winning_triple.
  assert (Hcell : ∀ a, <[i:=Some p]> sq !! a = str m → sq !! a = str m).
  { intros a Ha. destruct (decide (a = i)) as [-> | Hai].
    - rewrite list_lookup_insert_eq in Ha by done. congruence.
    - by rewrite list_lookup_insert_ne in Ha. }
  intros (H1 & H2 & H3). auto.
Qed.

Lemma click_winner_moved_last (st : GameState) (index : nat) :
  index < 9 → length (squares st) = 9 →
  (∀ t m, t ∈ lines → winning_triple (squares st) t m → currentPlayer st ≠ m) →
  ∀ t m, t ∈ lines →
    winning_triple (squares (handleSquareClick index st)) t m →
    currentPlayer (handleSquareClick index st) ≠ m.
Proof.
  intros Hi Hlen Hinv t m Hin. destruct (ignored index st) eqn:Hig.
  - rewrite click_ignored by done. by apply Hinv.
  - rewrite click_accepted by done. simpl.
    rewrite array_set_inside by lia. intros Hw Hcur.
    assert (Hne : m ≠ currentPlayer st).
    { intros ->. revert Hcur. destruct st as [sq x].
      apply (currentPlayer_flipped sq). }
    apply winning_triple_before in Hw; [| lia | done].
    unfold ignored in Hig. apply orb_false_iff in Hig as [_ Hnw].
    by apply (winner_falsy_no_triple _ Hnw t m).
Qed.

(** X6. In every reachable state, every winning triple on the board holds
    the mark of the player who moved last, not of the player who is next.
    So the two marks never both have a line, and the winner that is
    reported is the player who moved last. *)
Theorem reachable_winner_moved_last (st : GameState) :
  reachable st →
  (∀ t m, t ∈ lines → winning_triple (squares st) t m →
     m = other (currentPlayer st))
  ∧ (∀ m, winner (winnerInfo st) = str m → m = other (currentPlayer st)).
Proof.
  intros Hr.
  assert (Hinv : ∀ t m, t ∈ lines → winning_triple (squares st) t m →
                        currentPlayer st ≠ m).
  { induction Hr as [| st index Hr IH Hi | st _ _].
    - intros t m Hin (H1 & _). unfold lines in Hin.
      repeat (apply elem_of_cons in Hin as [-> | Hin]; [done |]).
      by apply elem_of_nil in Hin.
    - apply click_winner_moved_last; [done | | done].
      by apply reachable_length_balanced.
    - intros t m Hin (H1 & _). unfold lines in Hin.
      repeat (apply elem_of_cons in Hin as [-> | Hin]; [done |]).
      by apply elem_of_nil in Hin. }
  assert (Hother : ∀ m, currentPlayer st ≠ m → m = other (currentPlayer st)).
  { intros m. by destruct (currentPlayer st), m. }
  split.
  - intros t m Hin Hw. apply Hother. by eapply Hinv.
  - intros m Hm. apply Hother. unfold winnerInfo in Hm.
    destruct (calculateWinner_shape (squares st))
      as [[Hs _] | (a & b & c & m' & Hin & Hw & _ & _ & Hs)];
      rewrite Hs in Hm; simplify_eq/=.
    by eapply Hinv.
Qed.

Lemma reachable_winner_moved_last_witness :
  reachable state_x_row
  ∧ winner (winnerInfo state_x_row) = str X
  ∧ X = other (currentPlayer state_x_row).
Proof.
  split; [exact state_x_row_reachable |]. split; [reflexivity |].
  destruct (reachable_winner_moved_last state_x_row state_x_row_reachable)
    as [_ Hw].
  apply (Hw X). reflexivity.
Defined.

(** ** The board and its squares *)

Lemma every_Boolean_false (sq : list cell) :
  every_Boolean sq = false → ∃ i, sq !! i = null.
Proof.
  induction sq as [|c sq IH]; [discriminate |].
  destruct c as [m|]; [| by exists 0].
  simpl. intros H. destruct (IH H) as [i Hi]. by exists (S i).
Qed.

Lemma App_Board_lookup (st : GameState) (i : nat) (p : Square.props) :
  App_Board st !! i = Some p →
  ∃ c, squares st !! i = Some c
       ∧ p = {| Square.index := i;
                Square.value := c;
                Square.isWinning := bool_decide (i ∈ line (winnerInfo st));
                Square.onClick := handleSquareClick i;
                Square.disabled := truthy (Some c) || gameOver st;
                Square.currentPlayer := currentPlayer st |}.
Proof.
  unfold App_Board, Board. rewrite list_lookup_imap.
  destruct (squares st !! i) as [c|]; [| done].
  intros [= <-]. by exists c.
Qed.

(** X7. The board disables exactly the squares whose click the handler
    ignores: for every square it renders, in any state, the [disabled] prop
    equals the guard of [handleSquareClick] at that index, and the click of
    a disabled square leaves the state as it is. *)
Theorem board_disabled_iff_ignored (st : GameState) (i : nat)
    (p : Square.props) :
  App_Board st !! i = Some p →
  Square.disabled p = ignored i st
  ∧ (Square.disabled p = true → Square.onClick p st = st).
Proof.
  intros (c & Hc & ->)%App_Board_lookup.
  cbn [Square.disabled Square.onClick].
  assert (Heq : truthy (Some c) || gameOver st = ignored i st).
  { unfold ignored, gameOver, isDraw. rewrite Hc.
    destruct (truthy (Some c)) eqn:Hcell; [done |].
    destruct (truthy (winner (winnerInfo st))); [done |]. simpl.
    rewrite andb_true_r. apply not_true_iff_false. intros Hall.
    destruct (proj1 (every_Boolean_lookup _) Hall i) as [m Hm];
      [by eapply lookup_lt_Some |].
    rewrite Hc in Hm. injection Hm as ->. discriminate. }
  split; [done |]. rewrite Heq. apply click_ignored.
Qed.

Lemma board_disabled_iff_ignored_witness :
  ∃ p, App_Board state_won !! 5 = Some p
       ∧ Square.disabled p = ignored 5 state_won
       ∧ Square.disabled p = true.
Proof.
  eexists. split; [reflexivity |].
  split; [| reflexivity].
  eapply (board_disabled_iff_ignored state_won 5). reflexivity.
Defined.

(** X8. A game that is not over can go on: in every state whose verdict is
    [Ongoing] the board renders an enabled, empty square, and its click is
    accepted: it writes the mark of the current player there and passes
    the turn. *)
Theorem ongoing_has_enabled_square (st : GameState) :
  verdict st = Ongoing →
  ∃ i p, App_Board st !! i = Some p
         ∧ Square.value p = None
         ∧ Square.disabled p = false
         ∧ squares (Square.onClick p st) !! i = str (currentPlayer st)
         ∧ xIsNext (Square.onClick p st) = negb (xIsNext st).
Proof.
  intros Hv.
  assert (Hnw : truthy (winner (winnerInfo st)) = false)
    by by apply verdict_ongoing.
  assert (Hall : every_Boolean (squares st) = false).
  { unfold verdict, isDraw in Hv. rewrite Hnw in Hv.
    destruct (winner (winnerInfo st)) as [[m|]|]; try done;
      by destruct (every_Boolean (squares st)). }
  destruct (every_Boolean_false _ Hall) as [i Hi].
  assert (Hlt : i < length (squares st)) by by eapply lookup_lt_Some.
  assert (Hacc : ignored i st = false) by by apply empty_ongoing_accepted.
  eexists i, _. split.
  { unfold App_Board, Board. rewrite list_lookup_imap, Hi. reflexivity. }
  simpl. rewrite click_accepted by done. simpl.
  rewrite array_set_inside by done.
  split; [done |]. split; [| split; [by apply list_lookup_insert_eq | done]].
  unfold gameOver, isDraw. by rewrite Hnw, Hall.
Qed.

Lemma ongoing_has_enabled_square_witness :
  verdict state_open = Ongoing
  ∧ ∃ i p, App_Board state_open !! i = Some p
           ∧ Square.value p = None
           ∧ Square.disabled p = false
           ∧ squares (Square.onClick p state_open) !! i
             = str (currentPlayer state_open)
           ∧ xIsNext (Square.onClick p state_open)
             = negb (xIsNext state_open).
Proof.
  split; [reflexivity |].
  apply (ongoing_has_enabled_square state_open). reflexivity.
Defined.

(** X9. Only squares of the winner are highlighted: a square that the
    board renders as winning is disabled and holds the mark that
    [winnerInfo] reports as winner. Without a winner no square is
    highlighted. *)
Theorem highlighted_square_is_winners (st : GameState) (i : nat)
    (p : Square.props) :
  App_Board st !! i = Some p →
  Square.isWinning p = true →
  ∃ m, winner (winnerInfo st) = str m
       ∧ Square.value p = Some m
       ∧ Square.disabled p = true.
Proof.
  intros (c & Hc & ->)%App_Board_lookup.
  cbn [Square.isWinning Square.value Square.disabled].
  intros Hin%bool_decide_eq_true. unfold winnerInfo in *.
  destruct (calculateWinner_shape (squares st))
    as [[Hs _] | (a & b & k & m & _ & (Ha & Hb & Hk) & _ & _ & Hs)];
    rewrite Hs in Hin; simpl in Hin.
  - by apply elem_of_nil in Hin.
  - exists m. rewrite Hs. split; [done |]. simpl in Ha, Hb, Hk.
    assert (Hi : squares st !! i = str m).
    { repeat (apply elem_of_cons in Hin as [-> | Hin]; [done |]).
      by apply elem_of_nil in Hin. }
    rewrite Hc in Hi. injection Hi as ->. done.
Qed.

Lemma highlighted_square_is_winners_witness :
  ∃ p, App_Board state_won !! 1 = Some p
       ∧ Square.isWinning p = true
       ∧ ∃ m, winner (winnerInfo state_won) = str m
              ∧ Square.value p = Some m
              ∧ Square.disabled p = true.
Proof.
  eexists. split; [reflexivity |]. split; [reflexivity |].
  eapply (highlighted_square_is_winners state_won 1); reflexivity.
Defined.

(** X10. On a board of nine squares the board component highlights
    exactly three squares when [winnerInfo] reports a winner, and none
    otherwise. *)
Theorem highlighted_count (st : GameState) :
  length (squares st) = 9 →
  length (filter (λ p, Square.isWinning p = true) (App_Board st))
  = if truthy (winner (winnerInfo st)) then 3 else 0.
Proof.
  destruct st as [sq x]. cbn [squares]. intros Hlen.
  do 10 (destruct sq as [|? sq]; try discriminate Hlen). clear Hlen.
  unfold App_Board, winnerInfo. cbn [squares].
  match goal with |- context [calculateWinner ?l] =>
    destruct (calculateWinner_shape l)
      as [[-> _] | (a & b & k & m & Hin & _ & _ & _ & ->)]
  end; [reflexivity |].
  unfold lines in Hin.
  repeat (apply elem_of_cons in Hin as [[= -> -> ->] | Hin]; [reflexivity |]).
  by apply elem_of_nil in Hin.
Qed.

Lemma highlighted_count_witness :
  length (squares state_x_row) = 9
  ∧ length (filter (λ p, Square.isWinning p = true) (App_Board state_x_row))
    = 3.
Proof.
  split; [reflexivity |].
  apply (highlighted_count state_x_row). reflexivity.
Defined.

(** ** What a square announces *)

(** X11. The label of a square tells the move its click makes. When the
    click on a rendered square is accepted, the square is rendered enabled,
    without text, and labelled "Square n, empty. Plays p" for its position
    [n] counted from one and the current player [p]; in the state after the
    click it is rendered disabled, as filled, with the text [p] and the
    label "Square n, p". *)
Theorem accepted_click_rendering (st : GameState) (i : nat) :
  i < length (squares st) →
  ignored i st = false →
  ∃ p p',
    App_Board st !! i = Some p
    ∧ App_Board (Square.onClick p st) !! i = Some p'
    ∧ Square.button_disabled (Square.render p) = false
    ∧ Square.mark_text (Square.render p) = ""%string
    ∧ Square.aria_label (Square.render p)
      = ("Square " ++ number_string (i + 1) ++ ", empty. Plays "
         ++ mark_string (currentPlayer st))%string
    ∧ Square.button_disabled (Square.render p') = true
    ∧ Square.mark_text (Square.render p') = mark_string (currentPlayer st)
    ∧ Square.aria_label (Square.render p')
      = ("Square " ++ number_string (i + 1) ++ ", "
         ++ mark_string (currentPlayer st))%string
    ∧ Square.className (Square.render p')
      = ("square square--filled "
         ++ (if Square.isWinning p' then "square--win" else ""))%string.
Proof.
  intros Hi Hacc.
  assert (Hnull : squares st !! i = null).
  { apply truthy_false_lookup; [done |].
    unfold ignored in Hacc. by apply orb_false_iff in Hacc as [? _]. }
  assert (Hover : gameOver st = false).
  { unfold ignored in Hacc. apply orb_false_iff in Hacc as [_ Hnw].
    unfold gameOver, isDraw. rewrite Hnw. simpl. rewrite andb_true_r.
    apply not_true_iff_false. intros Hall.
    destruct (proj1 (every_Boolean_lookup _) Hall i Hi) as [m Hm]. congruence. }
  assert (Hnew : squares (handleSquareClick i st) !! i
                 = str (currentPlayer st)).
  { rewrite click_accepted by done. simpl. rewrite array_set_inside by done.
    by apply list_lookup_insert_eq. }
  eexists _, _. split.
  { unfold App_Board, Board. rewrite list_lookup_imap, Hnull. reflexivity. }
  cbn [Square.onClick]. split.
  { unfold App_Board, Board. rewrite list_lookup_imap, Hnew. reflexivity. }
  unfold Square.render, Square.aria. simpl. rewrite Hover.
  by repeat split.
Qed.

Lemma accepted_click_rendering_witness :
  2 < length (squares state_open)
  ∧ ignored 2 state_open = false
  ∧ ∃ p p',
      App_Board state_open !! 2 = Some p
      ∧ App_Board (Square.onClick p state_open) !! 2 = Some p'
      ∧ Square.aria_label (Square.render p)
        = "Square 3, empty. Plays X"%string
      ∧ Square.aria_label (Square.render p') = "Square 3, X"%string.
Proof.
  assert (Hlt : 2 < length (squares state_open)) by (simpl; lia).
  split; [exact Hlt |]. split; [reflexivity |].
  destruct (accepted_click_rendering state_open 2 Hlt eq_refl)
    as (p & p' & H1 & H2 & _ & _ & H3 & _ & _ & H4 & _).
  exists p, p'. split; [exact H1 |]. split; [exact H2 |].
  split; [exact H3 | exact H4].
Defined.

Lemma number_string_inj (n n' : nat) :
  number_string n = number_string n' → n = n'.
Proof.
  unfold number_string. intros H. apply Unsigned.to_uint_inj.
  apply (f_equal NilEmpty.uint_of_string) in H.
  rewrite !NilEmpty.usu in H. by injection H.
Qed.

(** X12. The test ids tell the squares apart: two squares of one board
    with the same [data-testid] are at the same position. *)
Theorem testid_unique (st : GameState) (i j : nat) (p q : Square.props) :
  App_Board st !! i = Some p →
  App_Board st !! j = Some q →
  Square.data_testid (Square.render p) = Square.data_testid (Square.render q) →
  i = j.
Proof.
  intros (c & _ & ->)%App_Board_lookup (d & _ & ->)%App_Board_lookup.
  unfold Square.render. cbn [Square.data_testid Square.index].
  intros H. apply number_string_inj.
  change (String.append "square-" (number_string i)
          = String.append "square-" (number_string j)) in H.
  cbn [String.append] in H. by injection H.
Qed.

Lemma testid_unique_witness :
  ∃ p q, App_Board state_open !! 7 = Some p
         ∧ App_Board state_open !! 7 = Some q
         ∧ Square.data_testid (Square.render p) = "square-7"%string
         ∧ Square.data_testid (Square.render q) = "square-7"%string
         ∧ 7 = 7.
Proof.
  eexists _, _. split; [reflexivity |]. split; [reflexivity |].
  split; [reflexivity |]. split; [reflexivity |].
  eapply (testid_unique state_open 7 7); reflexivity.
Defined.
